(** * Connection description and validation of the juju API client

    Shallow embedding of [api.Info], [Info.Validate], [Info.Ports],
    [api.DialOpts], [DefaultDialOpts] and of the rackspace provider
    configurator, with the properties stated about them. *)

From Stdlib Require Import ZArith Ascii String List Bool Lia.
From stdpp Require Import base option list gmap sets strings.

Open Scope Z_scope.

(** ** github.com/juju/errors

    A Go [error] is kept as a value: its kind and the message it prints.
    [NotValidf] builds the error recognised by [IsNotValid]; its message is
    the formatted text followed by [" not valid"]. *)
Module errors.

Inductive error : Type :=
| Plain (msg : string)
| NotValid (msg : string).

Definition Error (e : error) : string :=
  match e with
  | Plain msg => msg
  | NotValid msg => msg +:+ " not valid"
  end.

Definition NotValidf (msg : string) : error := NotValid msg.

Definition IsNotValid (e : error) : bool :=
  match e with
  | NotValid _ => true
  | Plain _ => false
  end.

(** [Trace] notes where the error passed by; the kind of the error and the
    message it prints stay what they were. *)
Definition Trace (e : error) : error := e.

End errors.

(** ** Conventions for Go values *)
Module golang.

(** What a call does: it returns a value or it panics with an error. *)
Inductive outcome (A : Type) : Type :=
| Returns (a : A)
| Panics (e : errors.error).
Arguments Returns {A} a.
Arguments Panics {A} e.

(** A non-nil interface value or pointer is [Some], [nil] is [None]. *)
Definition isSome {A : Type} (v : option A) : bool :=
  match v with
  | Some _ => true
  | None => false
  end.

End golang.

(** ** github.com/juju/utils/set

    [set.Ints] is a set of integers: [NewInts] is the empty set, [Add]
    inserts, [Values] lists the members (in no particular order). *)
Module set.

Abbreviation Ints := (gset Z).

Definition NewInts : Ints := ∅.

Definition Add (s : Ints) (v : Z) : Ints := {[ v ]} ∪ s.

Definition Values (s : Ints) : list Z := elements s.

End set.

(** ** github.com/juju/juju/network

    The package is used by [Info] but is not part of the sources at hand.
    What the client needs from it is kept as an interface: the type of
    parsed addresses, their port, and the parser of one ["host:port"]
    string. *)
Module network.

Class Network : Type := {
  HostPort : Type;
  Port : HostPort -> Z;
  ParseHostPort : string -> errors.error + HostPort;
}.

(** Modelled from the spec: [network.ParseHostPorts] is not among the
    sources.  An endpoint set is an "ordered sequence of host:port strings
    (non-empty, each independently resolvable)": the addresses are parsed
    one by one, in order; the first one that does not parse gives the
    error, otherwise the parsed addresses come back in the same order. *)
Fixpoint ParseHostPorts `{Network} (hostPorts : list string)
  : errors.error + list HostPort :=
  match hostPorts with
  | [] => inr []
  | hp :: rest =>
      match ParseHostPort hp with
      | inl err => inl err
      | inr hostPort =>
          match ParseHostPorts rest with
          | inl err => inl err
          | inr pairs => inr (hostPort :: pairs)
          end
      end
  end.

(** An address parses when the parser of one address accepts it. *)
Definition parses `{Network} (hp : string) : bool :=
  match ParseHostPort hp with
  | inr _ => true
  | inl _ => false
  end.

End network.

(** ** gopkg.in/juju/names.v2 and gopkg.in/macaroon.v1 *)
Module names.

Record ModelTag : Type := { uuid : string }.

(** A [names.Tag] is an interface value; what matters here is whether an
    [Info] holds one or [nil]. *)
Record Tag : Type := { Kind : string; Id : string }.

End names.

Module macaroon.

Record Macaroon : Type := { Location : string; Signature : string }.

Abbreviation Slice := (list Macaroon).

End macaroon.

(** ** Package time: a [Duration] is a count of nanoseconds. *)
Module time.

Abbreviation Duration := Z.

Definition Nanosecond : Duration := 1.
Definition Microsecond : Duration := 1000 * Nanosecond.
Definition Millisecond : Duration := 1000 * Microsecond.
Definition Second : Duration := 1000 * Millisecond.
Definition Minute : Duration := 60 * Second.

End time.

(** ** Packages behind the fields of [DialOpts] *)
Module clock.

(** [clock.Clock] is an interface; [WallClock] is the clock of the
    machine, any other implementation is named. *)
Inductive Clock : Type :=
| WallClock
| Named (name : string).

End clock.

Module httpbakery.

Record Client : Type := { Key : string }.

End httpbakery.

Module websocket.

Record Config : Type := { Location : string; Origin : string }.

Record Conn : Type := { id : nat }.

End websocket.

(** ** Package api *)
Module api.

Import errors network golang.

Record Info : Type := {
  Addrs : list string;
  SNIHostName : string;
  CACert : string;
  ModelTag : names.ModelTag;
  SkipLogin : bool;
  Tag : option names.Tag;
  Password : string;
  Macaroons : list macaroon.Slice;
  Nonce : string;
}.

Section WithNetwork.

Context `{Net : Network}.

(** [Info.Ports]: the unique ports of the api addresses. *)
Definition Ports (info : Info) : outcome (list Z) :=
  match ParseHostPorts (Addrs info) with
  | inl err => Panics err
  | inr hostPorts =>
      let ports :=
        fold_left (fun ports hp => set.Add ports (Port hp)) hostPorts set.NewInts in
      Returns (set.Values ports)
  end.

(** [Info.Validate]: [None] is Go's [nil] error. *)
Definition Validate (info : Info) : option error :=
  if (length (Addrs info) =? 0)%nat then
    Some (NotValidf "missing addresses")
  else
    match ParseHostPorts (Addrs info) with
    | inl err => Some (NotValidf ("host addresses: " +:+ Error err))
    | inr _ =>
        if SkipLogin info then
          if isSome (Tag info) then
            Some (NotValidf "specifying Tag and SkipLogin")
          else if negb (String.eqb (Password info) "") then
            Some (NotValidf "specifying Password and SkipLogin")
          else if (0 <? length (Macaroons info))%nat then
            Some (NotValidf "specifying Macaroons and SkipLogin")
          else None
        else None
    end.

(** *** The method with its receiver in the store

    [Validate] has a pointer receiver.  Here the [Info] it points to lives
    in a store, next to the log of the network activity of the process, and
    the method is written out as the reads it makes through its receiver,
    one [load] for each field access of the source, in the order of the
    source.  The call to [ParseHostPorts] is taken as a computation on
    strings alone. *)
Inductive NetEvent : Type :=
| Dialled (addr : string)
| Sent (payload : string)
| Received (payload : string).

Record World : Type := {
  receiver : Info;
  netLog : list NetEvent;
}.

Definition M (A : Type) : Type := World -> A * World.

Definition ret {A : Type} (a : A) : M A := fun w => (a, w).

Definition bind {A B : Type} (m : M A) (k : A -> M B) : M B :=
  fun w => let '(a, w') := m w in k a w'.

Notation "x <- m ;; k" := (bind m (fun x => k))
  (at level 100, m at next level, right associativity).

(** Reading a field through the receiver. *)
Definition load {A : Type} (field : Info -> A) : M A :=
  fun w => (field (receiver w), w).

Definition ValidateM : M (option error) :=
  addrs <- load Addrs ;;
  if (length addrs =? 0)%nat then
    ret (Some (NotValidf "missing addresses"))
  else
    addrs <- load Addrs ;;
    match ParseHostPorts addrs with
    | inl err => ret (Some (NotValidf ("host addresses: " +:+ Error err)))
    | inr _ =>
        skipLogin <- load SkipLogin ;;
        if skipLogin then
          tag <- load Tag ;;
          if isSome tag then
            ret (Some (NotValidf "specifying Tag and SkipLogin"))
          else
            password <- load Password ;;
            if negb (String.eqb password "") then
              ret (Some (NotValidf "specifying Password and SkipLogin"))
            else
              macaroons <- load Macaroons ;;
              if (0 <? length macaroons)%nat then
                ret (Some (NotValidf "specifying Macaroons and SkipLogin"))
              else ret None
        else ret None
    end.

End WithNetwork.

(** *** Dial options *)
Record DialOpts : Type := {
  CertPath : string;
  Clock : option clock.Clock;
  DialAddressInterval : time.Duration;
  Timeout : time.Duration;
  RetryDelay : time.Duration;
  BakeryClient : option httpbakery.Client;
  InsecureSkipVerify : bool;
  DialWebsocket : option (websocket.Config -> error + websocket.Conn);
}.

(** [DefaultDialOpts]: the fields the literal leaves out hold Go's zero
    value. *)
Definition DefaultDialOpts : DialOpts := {|
  CertPath := "";
  Clock := Some clock.WallClock;
  DialAddressInterval := 50 * time.Millisecond;
  Timeout := 10 * time.Minute;
  RetryDelay := 2 * time.Second;
  BakeryClient := None;
  InsecureSkipVerify := false;
  DialWebsocket := None;
|}.

(** *** Establishing a connection *)

(** Modelled from the spec: the code that turns an [Info] into the trust
    settings of a dial is not among the sources.  "If [caCert] is present,
    [sniHostName] is ignored (CA-based verification takes precedence over
    SNI-only trust)"; with an empty CA certificate the standard system
    roots are used and the SNI host name is the hint sent to the server. *)
Inductive Trust : Type :=
| CAVerified (caCert : string)
| SystemRoots (sniHostName : string).

Definition trustOf (info : Info) : Trust :=
  if String.eqb (CACert info) "" then SystemRoots (SNIHostName info)
  else CAVerified (CACert info).

Record TLSSettings : Type := {
  trust : Trust;
  verifyServerCert : bool;
}.

Definition tlsSettings (info : Info) (opts : DialOpts) : TLSSettings := {|
  trust := trustOf info;
  verifyServerCert := negb (InsecureSkipVerify opts);
|}.

Inductive DialResult (Transport : Type) : Type :=
| Connected (addr : string) (transport : Transport)
| InvalidConfiguration (e : error)
| DialTimeout.
Arguments Connected {Transport} addr transport.
Arguments InvalidConfiguration {Transport} e.
Arguments DialTimeout {Transport}.

Section Dialer.

Context `{Net : Network}.

(** The secure-transport primitive the connection core consumes: an
    attempt on one address under given trust settings gives a transport
    or fails. *)
Context {Transport : Type}.
Variable connect : string -> TLSSettings -> option Transport.

(** Modelled from the spec: the dialer is not among the sources.  The
    configuration is validated "before any I/O"; then every address is
    attempted and "the first to establish a secured transport wins".
    Which attempt is first depends on the network, so the function gives
    every result a dial can end with: one per address that can be
    reached, in the order of the addresses, or the dial timeout when none
    can. *)
Definition Dial (info : Info) (opts : DialOpts) : list (DialResult Transport) :=
  match Validate info with
  | Some err => [InvalidConfiguration err]
  | None =>
      let settings := tlsSettings info opts in
      let wins :=
        omap (fun addr => Connected addr <$> connect addr settings) (Addrs info) in
      match wins with
      | [] => [DialTimeout]
      | _ :: _ => wins
      end
  end.

End Dialer.

(** Two descriptions that differ at most in the SNI host name. *)
Definition sameButSNIHostName (a b : Info) : Prop :=
  Addrs a = Addrs b /\ CACert a = CACert b /\ ModelTag a = ModelTag b /\
  SkipLogin a = SkipLogin b /\ Tag a = Tag b /\ Password a = Password b /\
  Macaroons a = Macaroons b /\ Nonce a = Nonce b.

(** *** The supervisor of a live connection *)

(** Modelled from the spec: the implementation of [Connection] (the
    supervisor behind [Broken] and [IsBroken]) is not among the sources;
    only the interface is.  The states are [Connecting], [Authenticated],
    [Healthy], [Suspect] and [Broken]. *)
Inductive State : Type :=
| Connecting
| Authenticated
| Healthy
| Suspect
| Broken.

(** What can happen to a connection: the handshake succeeds, a liveness
    probe is answered in time, a probe is missed or fails, the underlying
    transport reports closed, [Close] is called. *)
Inductive Event : Type :=
| HandshakeSucceeded
| ProbeAnswered
| ProbeFailed
| TransportClosed
| CloseCalled.

(** The channel returned by [Broken] is either open or closed;
    [closeOps] counts the close operations performed on it. *)
Record Supervisor : Type := {
  state : State;
  brokenClosed : bool;
  closeOps : nat;
}.

Definition dialStarted : Supervisor :=
  {| state := Connecting; brokenClosed := false; closeOps := 0 |}.

(** Moving to another state leaves the signal alone. *)
Definition moveTo (st : State) (c : Supervisor) : Supervisor :=
  {| state := st; brokenClosed := brokenClosed c; closeOps := closeOps c |}.

(** Entering [Broken] closes the channel: one more close operation. *)
Definition break (c : Supervisor) : Supervisor :=
  {| state := Broken; brokenClosed := true; closeOps := S (closeOps c) |}.

(** Modelled from the spec: "a successful, timely response keeps/returns
    the machine to [Healthy].  A missed or errored probe moves it to
    [Suspect]; a second consecutive failure (or the underlying transport
    reporting closed) moves it to [Broken] and fires the one-shot broken
    signal"; "[Close]: transitions directly to [Broken] from any state";
    "[Broken] is terminal". *)
Definition step (c : Supervisor) (ev : Event) : Supervisor :=
  match state c with
  | Broken => c
  | Connecting =>
      match ev with
      | HandshakeSucceeded => moveTo Authenticated c
      | TransportClosed | CloseCalled => break c
      | ProbeAnswered | ProbeFailed => c
      end
  | Authenticated | Healthy =>
      match ev with
      | HandshakeSucceeded => c
      | ProbeAnswered => moveTo Healthy c
      | ProbeFailed => moveTo Suspect c
      | TransportClosed | CloseCalled => break c
      end
  | Suspect =>
      match ev with
      | HandshakeSucceeded => c
      | ProbeAnswered => moveTo Healthy c
      | ProbeFailed | TransportClosed | CloseCalled => break c
      end
  end.

Definition run (c : Supervisor) (evs : list Event) : Supervisor :=
  fold_left step evs c.

(** What holds of every supervisor that events can produce: the signal is
    closed exactly in [Broken], and was closed once when it is. *)
Definition signalConsistent (c : Supervisor) : Prop :=
  match state c with
  | Broken => brokenClosed c = true /\ closeOps c = 1%nat
  | _ => brokenClosed c = false /\ closeOps c = 0%nat
  end.

End api.

(** ** gopkg.in/goose.v1/nova

    [nova.RunServerOpts] is declared outside the sources at hand: of its
    fields the configurator names [ConfigDrive]; the others, whatever they
    are, are kept together. *)
Module nova.

Record RunServerOpts (Others : Type) : Type := {
  ConfigDrive : bool;
  others : Others;
}.
Arguments ConfigDrive {Others} _.
Arguments others {Others} _.

End nova.

(** ** github.com/juju/schema

    [schema.Defaults] maps the name of a setting to its default, a Go
    value of any type; the defaults given here are booleans and strings. *)
Module schema.

Inductive value : Type :=
| Bool (b : bool)
| Str (s : string).

Abbreviation Defaults := (gmap string value).

End schema.

(** ** github.com/juju/juju/cloudconfig/cloudinit

    The package is not part of the sources at hand.  It is kept as an
    interface: [New] builds the configuration for an operating system and
    a series or fails, [AddPackage] adds a package to a configuration,
    [Packages] lists the packages of one. *)
Module cloudinit.

Class CloudInit : Type := {
  OSType : Type;
  CloudConfig : Type;
  New : OSType -> string -> errors.error + CloudConfig;
  AddPackage : CloudConfig -> string -> CloudConfig;
  Packages : CloudConfig -> list string;
}.

End cloudinit.

(** ** github.com/juju/juju/cloudconfig/instancecfg and environs

    Of the parameters of an instance start, the configurator reads the
    operating system and the series of the instance configuration, which
    it reaches through a pointer. *)
Module instancecfg.

Record InstanceConfig `{cloudinit.CloudInit} : Type := {
  OSType : cloudinit.OSType;
  Series : string;
}.

End instancecfg.

Module environs.

Record StartInstanceParams `{cloudinit.CloudInit} : Type := {
  InstanceConfig : option instancecfg.InstanceConfig;
}.

End environs.

(** ** Package rackspace *)
Module rackspace.

Import golang.

Record rackspaceConfigurator : Type := {}.

(** [ModifyRunServerOptions] assigns through the pointer [options]: the
    result is the value the pointer leads to after the call; a nil
    pointer makes the assignment panic. *)
Definition ModifyRunServerOptions {Others : Type} (c : rackspaceConfigurator)
    (options : option (nova.RunServerOpts Others))
  : outcome (nova.RunServerOpts Others) :=
  match options with
  | None =>
      Panics (errors.Plain "invalid memory address or nil pointer dereference")
  | Some opts =>
      Returns {| nova.ConfigDrive := true; nova.others := nova.others opts |}
  end.

(** [GetCloudConfig] returns a configuration and an error, one of them
    nil; reading through a nil [InstanceConfig] panics. *)
Definition GetCloudConfig `{CI : cloudinit.CloudInit} (c : rackspaceConfigurator)
    (args : environs.StartInstanceParams)
  : outcome (option cloudinit.CloudConfig * option errors.error) :=
  match environs.InstanceConfig args with
  | None =>
      Panics (errors.Plain "invalid memory address or nil pointer dereference")
  | Some instanceConfig =>
      match cloudinit.New (instancecfg.OSType instanceConfig)
                          (instancecfg.Series instanceConfig) with
      | inl err => Returns (None, Some (errors.Trace err))
      | inr cloudcfg =>
          let cloudcfg := cloudinit.AddPackage cloudcfg "iptables-persistent" in
          Returns (Some cloudcfg, None)
      end
  end.

(** [GetConfigDefaults]: the map literal, entry by entry. *)
Definition GetConfigDefaults (c : rackspaceConfigurator) : schema.Defaults :=
  list_to_map [
    ("use-floating-ip", schema.Bool false);
    ("use-default-secgroup", schema.Bool false);
    ("network", schema.Str "")
  ].

End rackspace.

(** ** A network package to run examples with

    An instance of the interface for evaluating the definitions on
    concrete addresses: a host, a colon, a port in decimal digits. *)
Module simplenet.

Record hostPort : Type := { host : string; port : Z }.

Fixpoint splitColon (s : string) : option (string * string) :=
  match s with
  | EmptyString => None
  | String c rest =>
      if Ascii.eqb c ":"%char then Some (EmptyString, rest)
      else
        match splitColon rest with
        | Some (h, p) => Some (String c h, p)
        | None => None
        end
  end.

Fixpoint digits (acc : Z) (s : string) : option Z :=
  match s with
  | EmptyString => Some acc
  | String c rest =>
      let d := Z.of_nat (Ascii.nat_of_ascii c) - 48 in
      if (0 <=? d) && (d <=? 9) then digits (10 * acc + d) rest else None
  end.

Definition parseHostPort (s : string) : errors.error + hostPort :=
  match splitColon s with
  | None => inl (errors.Plain ("cannot parse " +:+ s +:+ " as address:port"))
  | Some (h, p) =>
      match p with
      | EmptyString => inl (errors.Plain ("cannot parse " +:+ s +:+ " port"))
      | _ =>
          match digits 0 p with
          | Some n => inr {| host := h; port := n |}
          | None => inl (errors.Plain ("cannot parse " +:+ s +:+ " port"))
          end
      end
  end.

Definition net : network.Network := {|
  network.HostPort := hostPort;
  network.Port := port;
  network.ParseHostPort := parseHostPort;
|}.

End simplenet.

(** ** A cloudinit package to run examples with

    A configuration is the list of its packages; only the series
    ["precise"] and ["trusty"] are known, and the base configuration of a
    known series installs [curl]. *)
Module simplecloud.

Definition new (os : unit) (series : string) : errors.error + list string :=
  if String.eqb series "precise" || String.eqb series "trusty" then inr ["curl"]
  else inl (errors.Plain ("unknown series " +:+ series)).

Definition cloud : cloudinit.CloudInit := {|
  cloudinit.OSType := unit;
  cloudinit.CloudConfig := list string;
  cloudinit.New := new;
  cloudinit.AddPackage := fun cfg pkg => cfg ++ [pkg];
  cloudinit.Packages := fun cfg => cfg;
|}.

Definition instanceConfig (series : string) : @instancecfg.InstanceConfig cloud :=
  {| instancecfg.OSType := (tt : @cloudinit.OSType cloud);
     instancecfg.Series := series |}.

Definition startParams (series : string) : @environs.StartInstanceParams cloud :=
  {| environs.InstanceConfig := Some (instanceConfig series) |}.

End simplecloud.

(** ** Example descriptions and an example network *)
Module examples.

Import api.

(** An example description: the given addresses and credentials, nothing
    else set. *)
Definition exampleInfo (addrs : list string) (skipLogin : bool)
    (tag : option names.Tag) (password : string)
    (macaroons : list macaroon.Slice) : Info := {|
  Addrs := addrs;
  SNIHostName := "";
  CACert := "";
  ModelTag := {| names.uuid := "deadbeef" |};
  SkipLogin := skipLogin;
  Tag := tag;
  Password := password;
  Macaroons := macaroons;
  Nonce := "";
|}.

Definition skipWithPassword : Info :=
  exampleInfo ["10.0.0.1:17070"] true None "sekrit" [].

Definition skipAnonymous : Info :=
  exampleInfo ["10.0.0.1:17070"; "10.0.0.2:17070"; "10.0.0.3:443"] true None "" [].

Definition badPort : Info :=
  exampleInfo ["10.0.0.1:17070"; "10.0.0.2:http"] false None "sekrit" [].

(** A network on which the trust settings matter: the server is reached
    under CA verification, and under the system roots only when the SNI
    host name is the one it serves. *)
Definition pickyConnect (addr : string) (settings : TLSSettings) : option nat :=
  match trust settings with
  | CAVerified _ => Some 1%nat
  | SystemRoots sni => if String.eqb sni "controller.example" then Some 2%nat else None
  end.

Definition withTrust (caCert sni : string) : Info := {|
  Addrs := ["10.0.0.1:17070"];
  SNIHostName := sni;
  CACert := caCert;
  ModelTag := {| names.uuid := "deadbeef" |};
  SkipLogin := false;
  Tag := Some {| names.Kind := "user"; names.Id := "admin" |};
  Password := "sekrit";
  Macaroons := [];
  Nonce := "";
|}.

End examples.

(** * Properties *)

Import errors network golang api examples.

Section ParseHostPortsFacts.

Context `{Net : Network}.

Lemma ParseHostPorts_cons (hp : string) (rest : list string) :
  ParseHostPorts (hp :: rest) =
  match ParseHostPort hp with
  | inl err => inl err
  | inr hostPort =>
      match ParseHostPorts rest with
      | inl err => inl err
      | inr pairs => inr (hostPort :: pairs)
      end
  end.
Proof. reflexivity. Qed.

(** A list of addresses that all parse gives the parsed addresses. *)
Lemma ParseHostPorts_all_parse (addrs : list string) :
  Forall (fun a => parses a = true) addrs ->
  exists hostPorts, ParseHostPorts addrs = inr hostPorts.
Proof.
  induction 1 as [|a rest Ha _ [hps IH]].
  - exists []. reflexivity.
  - unfold parses in Ha. rewrite ParseHostPorts_cons, IH.
    destruct (ParseHostPort a) as [err|hp]; [discriminate|].
    exists (hp :: hps). reflexivity.
Qed.

(** The parsed addresses correspond one to one, in order, to the given
    ones. *)
Lemma ParseHostPorts_inr (addrs : list string) :
  forall hostPorts, ParseHostPorts addrs = inr hostPorts ->
  Forall2 (fun a hp => ParseHostPort a = inr hp) addrs hostPorts.
Proof.
  induction addrs as [|a rest IH]; intros hps Hp.
  - injection Hp as <-. constructor.
  - rewrite ParseHostPorts_cons in Hp.
    destruct (ParseHostPort a) as [err|hp] eqn:Ea; [discriminate|].
    destruct (ParseHostPorts rest) as [err|tl]; [discriminate|].
    injection Hp as <-. constructor; [exact Ea | apply IH; reflexivity].
Qed.

Lemma ParseHostPorts_inr_parses (addrs : list string) (hostPorts : list HostPort) :
  ParseHostPorts addrs = inr hostPorts ->
  Forall (fun a => parses a = true) addrs.
Proof.
  intros Hp. apply ParseHostPorts_inr in Hp.
  induction Hp as [|a hp rest hps Ha _ IH]; constructor; [|exact IH].
  unfold parses. rewrite Ha. reflexivity.
Qed.

(** One address that does not parse makes the whole list fail. *)
Lemma ParseHostPorts_one_fails (addrs : list string) (a : string) :
  a ∈ addrs -> parses a = false ->
  exists err, ParseHostPorts addrs = inl err.
Proof.
  intros Hin Ha.
  destruct (ParseHostPorts addrs) as [err|hps] eqn:Hp; [exists err; reflexivity|].
  apply ParseHostPorts_inr_parses in Hp.
  rewrite Forall_forall in Hp.
  rewrite (Hp a Hin) in Ha. discriminate.
Qed.

(** Every error of [Validate] is built by [NotValidf]. *)
Lemma Validate_error_is_not_valid (info : Info) (e : error) :
  Validate info = Some e -> IsNotValid e = true.
Proof.
  unfold Validate. intros Hv.
  repeat match type of Hv with
         | context [if ?b then _ else _] => destruct b
         | context [match ?x with inl _ => _ | inr _ => _ end] => destruct x
         end;
    try discriminate; injection Hv as <-; reflexivity.
Qed.

(** When [Validate] accepts: addresses are there, they parse as a whole,
    and a login that is skipped comes with no credentials. *)
Lemma Validate_None_inv (info : Info) :
  Validate info = None ->
  Addrs info <> [] /\
  (exists hostPorts, ParseHostPorts (Addrs info) = inr hostPorts) /\
  (SkipLogin info = true ->
   Tag info = None /\ Password info = "" /\ Macaroons info = []).
Proof.
  unfold Validate. intros Hv.
  destruct (Addrs info) as [|a rest] eqn:Ea; [discriminate|]. cbn [length Nat.eqb] in Hv.
  destruct (ParseHostPorts (a :: rest)) as [err|hps]; [discriminate|].
  split; [discriminate|]. split; [exists hps; reflexivity|].
  intros Hs. rewrite Hs in Hv.
  destruct (Tag info); [discriminate|]. cbn [isSome] in Hv.
  destruct (String.eqb (Password info) "") eqn:Ep; [|discriminate].
  apply String.eqb_eq in Ep. cbn [negb] in Hv.
  destruct (Macaroons info); [|discriminate]. auto.
Qed.

Lemma Validate_accepts (info : Info) :
  Addrs info <> [] ->
  Forall (fun a => parses a = true) (Addrs info) ->
  (SkipLogin info = true ->
   Tag info = None /\ Password info = "" /\ Macaroons info = []) ->
  Validate info = None.
Proof.
  intros Hne Hall Hskip. unfold Validate.
  destruct (ParseHostPorts_all_parse _ Hall) as [hps ->].
  destruct (Addrs info) as [|a rest]; [congruence|]. cbn [length Nat.eqb].
  destruct (SkipLogin info); [|reflexivity].
  destruct (Hskip eq_refl) as (-> & -> & ->). reflexivity.
Qed.

(** The method run over the store gives what [Validate] gives on the
    receiver, and hands the store back as it was. *)
Lemma ValidateM_run (w : World) :
  ValidateM w = (Validate (receiver w), w).
Proof.
  unfold ValidateM, Validate, bind, load, ret.
  destruct (length (Addrs (receiver w)) =? 0)%nat; [reflexivity|].
  destruct (ParseHostPorts (Addrs (receiver w))); [reflexivity|].
  destruct (SkipLogin (receiver w)); [|reflexivity].
  destruct (isSome (Tag (receiver w))); [reflexivity|].
  destruct (negb (String.eqb (Password (receiver w)) "")); [reflexivity|].
  destruct (0 <? length (Macaroons (receiver w)))%nat; reflexivity.
Qed.

(** Members of the set built by repeated [Add]. *)
Lemma elem_of_fold_Add (hostPorts : list HostPort) (s : set.Ints) (p : Z) :
  p ∈ fold_left (fun ports hp => set.Add ports (Port hp)) hostPorts s <->
  p ∈ s \/ exists hp, hp ∈ hostPorts /\ Port hp = p.
Proof.
  revert s. induction hostPorts as [|hp rest IH]; intros s; cbn [fold_left].
  - split; [auto|]. intros [H|(hp & Hin & _)]; [exact H|]. inversion Hin.
  - rewrite IH. unfold set.Add. rewrite elem_of_union, elem_of_singleton. split.
    + intros [[->|H]|(hp' & Hin & Hp)].
      * right. exists hp. split; [left|reflexivity].
      * left. exact H.
      * right. exists hp'. split; [right; exact Hin|exact Hp].
    + intros [H|(hp' & Hin & Hp)]; [left; right; exact H|].
      apply elem_of_cons in Hin as [->|Hin]; [left; left; symmetry; exact Hp|].
      right. exists hp'. split; assumption.
Qed.

End ParseHostPortsFacts.

Section ValidateAndPorts.

Context `{Net : Network}.

(** C1: for an [Info] with [SkipLogin] set, [Validate] returns a
    not-valid error whenever [Tag] is non-nil, or [Password] is non-empty,
    or [Macaroons] is non-empty; with all three empty and a non-empty list
    of addresses that all parse, it returns nil.  The check involves no
    network activity: run over the store, the method gives the same answer
    and leaves the network log (and the receiver) as they were. *)
Theorem Validate_SkipLogin_credentials (info : Info) :
  SkipLogin info = true ->
  ((Tag info <> None \/ Password info <> "" \/ Macaroons info <> []) ->
   exists e, Validate info = Some e /\ IsNotValid e = true) /\
  (Tag info = None -> Password info = "" -> Macaroons info = [] ->
   Addrs info <> [] -> Forall (fun a => parses a = true) (Addrs info) ->
   Validate info = None) /\
  (forall log : list NetEvent,
     ValidateM {| receiver := info; netLog := log |} =
     (Validate info, {| receiver := info; netLog := log |})).
Proof.
  intros Hskip. split; [|split].
  - intros Hcred. destruct (Validate info) as [e|] eqn:Hv.
    + exists e. split; [reflexivity|]. exact (Validate_error_is_not_valid _ _ Hv).
    + apply Validate_None_inv in Hv as (_ & _ & Hnone).
      destruct (Hnone Hskip) as (Ht & Hp & Hm).
      destruct Hcred as [H|[H|H]]; contradiction.
  - intros Ht Hp Hm Hne Hall. apply Validate_accepts; auto.
  - intros log. apply ValidateM_run.
Qed.

(** C2: [Validate] returns a not-valid error if [Addrs] is empty, and a
    not-valid error if some element of [Addrs] does not parse as a
    host:port address; it returns nil only when [Addrs] is non-empty and
    every element parses. *)
Theorem Validate_addresses (info : Info) :
  (Addrs info = [] ->
   exists e, Validate info = Some e /\ IsNotValid e = true) /\
  (forall a, a ∈ Addrs info -> parses a = false ->
   exists e, Validate info = Some e /\ IsNotValid e = true) /\
  (Validate info = None ->
   Addrs info <> [] /\ Forall (fun a => parses a = true) (Addrs info)).
Proof.
  split; [|split].
  - intros He. unfold Validate. rewrite He. cbn.
    eexists. split; reflexivity.
  - intros a Hin Ha.
    destruct (ParseHostPorts_one_fails _ _ Hin Ha) as [err Herr].
    unfold Validate. rewrite Herr.
    destruct (length (Addrs info) =? 0)%nat; eexists; split; reflexivity.
  - intros Hv. apply Validate_None_inv in Hv as (Hne & [hps Hp] & _).
    split; [exact Hne|]. exact (ParseHostPorts_inr_parses _ _ Hp).
Qed.

(** C8: for an [Info] that [Validate] accepts, [Ports] does not panic: the
    [ParseHostPorts] call inside it succeeds, so it returns. *)
Theorem Ports_returns_after_Validate (info : Info) :
  Validate info = None ->
  exists ports, Ports info = Returns ports.
Proof.
  intros Hv. apply Validate_None_inv in Hv as (_ & [hps Hp] & _).
  unfold Ports. rewrite Hp. eexists. reflexivity.
Qed.

(** C9: for an [Info] whose [Addrs] all parse, [Ports] returns exactly the
    distinct port numbers occurring in [Addrs]: a value is in the result if
    and only if it is the port of some address, and no value is there
    twice. *)
Theorem Ports_distinct_ports_of_Addrs (info : Info) :
  Forall (fun a => parses a = true) (Addrs info) ->
  exists ports,
    Ports info = Returns ports /\
    NoDup ports /\
    forall p : Z,
      p ∈ ports <->
      exists a hp, a ∈ Addrs info /\ ParseHostPort a = inr hp /\ Port hp = p.
Proof.
  intros Hall. destruct (ParseHostPorts_all_parse _ Hall) as [hps Hp].
  unfold Ports. rewrite Hp. eexists. split; [reflexivity|].
  unfold set.Values. split; [apply NoDup_elements|].
  intros p. rewrite elem_of_elements, elem_of_fold_Add.
  apply ParseHostPorts_inr in Hp. split.
  - intros [H|(hp & Hin & Hport)]; [set_solver|].
    apply list_elem_of_lookup in Hin as [i Hi].
    destruct (Forall2_lookup_r _ _ _ _ _ Hp Hi) as (a & Ha & Hpa).
    exists a, hp. split; [|split; assumption].
    apply list_elem_of_lookup. exists i. exact Ha.
  - intros (a & hp & Hin & Hpa & Hport). right.
    apply list_elem_of_lookup in Hin as [i Hi].
    destruct (Forall2_lookup_l _ _ _ _ _ Hp Hi) as (hp' & Hh & Hpa').
    rewrite Hpa in Hpa'. injection Hpa' as <-.
    exists hp. split; [|exact Hport].
    apply list_elem_of_lookup. exists i. exact Hh.
Qed.

End ValidateAndPorts.

(** C3: [DefaultDialOpts] has a [DialAddressInterval] of exactly 50
    milliseconds, a [Timeout] of exactly 10 minutes, a [RetryDelay] of
    exactly 2 seconds (durations are nanoseconds), and its
    [InsecureSkipVerify] is false: TLS verification is on. *)
Theorem DefaultDialOpts_values :
  DialAddressInterval DefaultDialOpts = 50 * time.Millisecond /\
  DialAddressInterval DefaultDialOpts = 50000000 /\
  Timeout DefaultDialOpts = 10 * time.Minute /\
  Timeout DefaultDialOpts = 600000000000 /\
  RetryDelay DefaultDialOpts = 2 * time.Second /\
  RetryDelay DefaultDialOpts = 2000000000 /\
  InsecureSkipVerify DefaultDialOpts = false.
Proof. repeat split. Qed.

(** ** The supervisor *)

Lemma step_Broken (c : Supervisor) (ev : Event) :
  state c = Broken -> step c ev = c.
Proof. intros Hb. unfold step. rewrite Hb. reflexivity. Qed.

Lemma run_Broken (evs : list Event) :
  forall c, state c = Broken -> run c evs = c.
Proof.
  induction evs as [|ev evs IH]; intros c Hb; [reflexivity|].
  unfold run in *. cbn [fold_left]. rewrite (step_Broken c ev Hb). apply IH, Hb.
Qed.

Lemma step_signalConsistent (c : Supervisor) (ev : Event) :
  signalConsistent c -> signalConsistent (step c ev).
Proof.
  unfold signalConsistent, step.
  destruct c as [st cl n]; cbn [state brokenClosed closeOps].
  destruct st, ev; cbn; intros [? ?]; subst; auto.
Qed.

Lemma run_signalConsistent (evs : list Event) :
  forall c, signalConsistent c -> signalConsistent (run c evs).
Proof.
  induction evs as [|ev evs IH]; intros c Hc; [exact Hc|].
  unfold run in *. cbn [fold_left]. apply IH, step_signalConsistent, Hc.
Qed.

Lemma signalConsistent_closeOps (c : Supervisor) :
  signalConsistent c -> (closeOps c <= 1)%nat.
Proof.
  unfold signalConsistent. destruct (state c); intros [_ ->]; lia.
Qed.

Lemma run_app (c : Supervisor) (evs evs' : list Event) :
  run c (evs ++ evs') = run (run c evs) evs'.
Proof. unfold run. apply fold_left_app. Qed.

(** C6: over the lifetime of a connection, however many probe failures or
    close events of the transport occur, the broken signal is closed at
    most once; and once the supervisor is in [Broken], no event changes
    its state (nor closes the signal again). *)
Theorem Broken_signal_closed_at_most_once (evs evs' : list Event) :
  (closeOps (run dialStarted (evs ++ evs')) <= 1)%nat /\
  (state (run dialStarted evs) = Broken ->
   state (run dialStarted (evs ++ evs')) = Broken /\
   closeOps (run dialStarted (evs ++ evs')) = closeOps (run dialStarted evs)) /\
  (forall (c : Supervisor) (ev : Event),
     state c = Broken -> step c ev = c).
Proof.
  split; [|split].
  - apply signalConsistent_closeOps, run_signalConsistent.
    split; reflexivity.
  - intros Hb. rewrite run_app, (run_Broken evs' _ Hb). auto.
  - exact step_Broken.
Qed.

(** ** Establishing a connection *)

(** [Validate] reads no [SNIHostName]. *)
Lemma Validate_sameButSNIHostName `{Net : Network} (a b : Info) :
  sameButSNIHostName a b -> Validate a = Validate b.
Proof.
  intros (Ha & _ & _ & Hs & Ht & Hp & Hm & _).
  unfold Validate. rewrite Ha, Hs, Ht, Hp, Hm. reflexivity.
Qed.

Lemma trustOf_CACert (info : Info) :
  CACert info <> "" -> trustOf info = CAVerified (CACert info).
Proof.
  intros Hne. unfold trustOf.
  destruct (String.eqb (CACert info) "") eqn:E; [|reflexivity].
  apply String.eqb_eq in E. contradiction.
Qed.

(** C7: with a non-empty [CACert], establishing the connection does not
    depend on [SNIHostName]: two descriptions that differ only in that
    field give the same results, whatever the network. *)
Theorem Dial_ignores_SNIHostName_with_CACert `{Net : Network} {Transport : Type}
    (connect : string -> TLSSettings -> option Transport)
    (a b : Info) (opts : DialOpts) :
  sameButSNIHostName a b ->
  CACert a <> "" ->
  Dial connect a opts = Dial connect b opts.
Proof.
  intros Hsame Hca. unfold Dial, tlsSettings.
  rewrite (Validate_sameButSNIHostName a b Hsame).
  destruct Hsame as (Ha & Hc & _).
  rewrite (trustOf_CACert a Hca).
  rewrite Hc in Hca. rewrite (trustOf_CACert b Hca), Ha, Hc. reflexivity.
Qed.

(** ** The rackspace configurator *)

(** C10: on any options value, [ModifyRunServerOptions] sets [ConfigDrive]
    to true and leaves every other field as it was. *)
Theorem ModifyRunServerOptions_sets_ConfigDrive {Others : Type}
    (c : rackspace.rackspaceConfigurator) (options : nova.RunServerOpts Others) :
  exists options',
    rackspace.ModifyRunServerOptions c (Some options) = Returns options' /\
    nova.ConfigDrive options' = true /\
    nova.others options' = nova.others options.
Proof. eexists. repeat split. Qed.

(** * The statements at concrete inputs *)

(** A skipped login with a password is refused, one without credentials is
    accepted and leaves an empty network log empty. *)
Lemma Validate_SkipLogin_credentials_witness :
  SkipLogin skipWithPassword = true /\
  (exists e, @Validate simplenet.net skipWithPassword = Some e /\
             IsNotValid e = true) /\
  @Validate simplenet.net skipAnonymous = None /\
  @ValidateM simplenet.net {| receiver := skipAnonymous; netLog := [] |} =
  (None, {| receiver := skipAnonymous; netLog := [] |}).
Proof.
  destruct (Validate_SkipLogin_credentials (Net := simplenet.net)
              skipWithPassword eq_refl) as (Hbad & _ & _).
  destruct (Validate_SkipLogin_credentials (Net := simplenet.net)
              skipAnonymous eq_refl) as (_ & Hok & Hrun).
  split; [reflexivity|]. split; [|split].
  - apply Hbad. right. left. discriminate.
  - apply Hok; try reflexivity; [discriminate | repeat constructor].
  - rewrite (Hrun []). reflexivity.
Defined.

(** An address with a port that is no number is refused; the accepted
    description has addresses and they all parse. *)
Lemma Validate_addresses_witness :
  (exists e, @Validate simplenet.net badPort = Some e /\ IsNotValid e = true) /\
  Addrs skipAnonymous <> [] /\
  Forall (fun a => @parses simplenet.net a = true) (Addrs skipAnonymous).
Proof.
  destruct (Validate_addresses (Net := simplenet.net) badPort) as (_ & Hbad & _).
  destruct (Validate_addresses (Net := simplenet.net) skipAnonymous) as (_ & _ & Hok).
  split.
  - apply (Hbad "10.0.0.2:http"); [do 2 constructor | reflexivity].
  - apply Hok. reflexivity.
Defined.

(** The accepted description has its ports. *)
Lemma Ports_returns_after_Validate_witness :
  @Validate simplenet.net skipAnonymous = None /\
  exists ports, @Ports simplenet.net skipAnonymous = Returns ports.
Proof.
  split; [reflexivity|].
  apply (Ports_returns_after_Validate (Net := simplenet.net) skipAnonymous).
  reflexivity.
Defined.

(** Three addresses on two ports. *)
Lemma Ports_distinct_ports_of_Addrs_witness :
  exists ports,
    @Ports simplenet.net skipAnonymous = Returns ports /\
    NoDup ports /\
    forall p : Z,
      p ∈ ports <->
      exists a hp, a ∈ Addrs skipAnonymous /\
                   simplenet.parseHostPort a = inr hp /\ simplenet.port hp = p.
Proof.
  apply (Ports_distinct_ports_of_Addrs (Net := simplenet.net) skipAnonymous).
  repeat constructor.
Defined.

(** A connection that breaks on the second failed probe in a row, and what
    happens to it afterwards. *)
Lemma Broken_signal_closed_at_most_once_witness :
  let lifetime := [HandshakeSucceeded; ProbeAnswered; ProbeFailed; ProbeFailed] in
  let later := [ProbeFailed; TransportClosed; TransportClosed; CloseCalled] in
  state (run dialStarted lifetime) = Broken /\
  state (run dialStarted (lifetime ++ later)) = Broken /\
  closeOps (run dialStarted (lifetime ++ later)) = 1%nat.
Proof.
  intros lifetime later.
  destruct (Broken_signal_closed_at_most_once lifetime later) as (_ & Hstay & _).
  split; [reflexivity|]. exact (Hstay eq_refl).
Defined.

(** Two descriptions with the same CA certificate and different SNI host
    names, on a network that tells SNI host names apart. *)
Lemma Dial_ignores_SNIHostName_with_CACert_witness :
  sameButSNIHostName (withTrust "PEM" "controller.example") (withTrust "PEM" "other.example") /\
  CACert (withTrust "PEM" "controller.example") <> "" /\
  @Dial simplenet.net nat pickyConnect (withTrust "PEM" "controller.example") DefaultDialOpts =
  @Dial simplenet.net nat pickyConnect (withTrust "PEM" "other.example") DefaultDialOpts.
Proof.
  assert (Hsame : sameButSNIHostName (withTrust "PEM" "controller.example")
                                     (withTrust "PEM" "other.example"))
    by (repeat split).
  assert (Hca : CACert (withTrust "PEM" "controller.example") <> "")
    by discriminate.
  split; [exact Hsame|]. split; [exact Hca|].
  exact (Dial_ignores_SNIHostName_with_CACert (Net := simplenet.net)
           pickyConnect _ _ DefaultDialOpts Hsame Hca).
Defined.

(** Without a CA certificate the SNI host name does count: the two
    descriptions above, stripped of their certificate, dial differently. *)
Example Dial_uses_SNIHostName_without_CACert :
  @Dial simplenet.net nat pickyConnect (withTrust "" "controller.example") DefaultDialOpts
    = [Connected "10.0.0.1:17070" 2%nat] /\
  @Dial simplenet.net nat pickyConnect (withTrust "" "other.example") DefaultDialOpts
    = [DialTimeout].
Proof. split; reflexivity. Qed.

(** [Ports] and [Validate] on the examples. *)
Example Ports_skipAnonymous :
  @Ports simplenet.net skipAnonymous = Returns [443; 17070].
Proof. vm_compute. reflexivity. Qed.

Example Ports_badPort_panics :
  @Ports simplenet.net badPort =
  Panics (Plain "cannot parse 10.0.0.2:http port").
Proof. reflexivity. Qed.

Example Validate_badPort :
  @Validate simplenet.net badPort =
  Some (NotValid "host addresses: cannot parse 10.0.0.2:http port").
Proof. reflexivity. Qed.

Example Validate_skipWithPassword :
  @Validate simplenet.net skipWithPassword =
  Some (NotValid "specifying Password and SkipLogin").
Proof. reflexivity. Qed.

(** * Further properties of [Validate] and [Ports] *)

Section MoreOnValidateAndPorts.

Context `{Net : Network}.

(** The list is parsed as a whole exactly when each address parses. *)
Lemma ParseHostPorts_fails_some_address (addrs : list string) (err : error) :
  ParseHostPorts addrs = inl err ->
  exists a, a ∈ addrs /\ parses a = false.
Proof.
  induction addrs as [|a rest IH]; [discriminate|].
  rewrite ParseHostPorts_cons. intros Hp.
  destruct (ParseHostPort a) as [e|hp] eqn:Ea.
  - exists a. split; [left|]. unfold parses. rewrite Ea. reflexivity.
  - destruct (ParseHostPorts rest) as [e|hps]; [|discriminate].
    destruct (IH Hp) as (b & Hin & Hb).
    exists b. split; [right; exact Hin|exact Hb].
Qed.

(** The ports gathered from the parsed addresses are the ports of the
    addresses. *)
Lemma gathered_ports (addrs : list string) (hostPorts : list HostPort) (p : Z) :
  ParseHostPorts addrs = inr hostPorts ->
  p ∈ fold_left (fun ports hp => set.Add ports (Port hp)) hostPorts set.NewInts <->
  exists a hp, a ∈ addrs /\ ParseHostPort a = inr hp /\ Port hp = p.
Proof.
  intros Hp. apply ParseHostPorts_inr in Hp.
  rewrite elem_of_fold_Add. unfold set.NewInts. split.
  - intros [H|(hp & Hin & Hport)]; [exfalso; exact (not_elem_of_empty p H)|].
    destruct (proj1 (list_elem_of_lookup _ _) Hin) as [i Hi].
    destruct (Forall2_lookup_r _ _ _ _ _ Hp Hi) as (a & Ha & Hpa).
    exists a, hp. split; [|split; assumption].
    apply list_elem_of_lookup. exists i. exact Ha.
  - intros (a & hp & Hin & Hpa & Hport). right.
    destruct (proj1 (list_elem_of_lookup _ _) Hin) as [i Hi].
    destruct (Forall2_lookup_l _ _ _ _ _ Hp Hi) as (hp' & Hh & Hpa').
    assert (hp' = hp) as -> by congruence.
    exists hp. split; [|exact Hport].
    apply list_elem_of_lookup. exists i. exact Hh.
Qed.

(** Each [Add] makes the set grow by one member at most. *)
Lemma size_fold_Add (hostPorts : list HostPort) (s : set.Ints) :
  (size (fold_left (fun ports hp => set.Add ports (Port hp)) hostPorts s)
   <= length hostPorts + size s)%nat.
Proof.
  revert s. induction hostPorts as [|hp rest IH]; intros s; cbn [fold_left length].
  - lia.
  - specialize (IH (set.Add s (Port hp))). unfold set.Add in *.
    rewrite size_union_alt, size_singleton in IH.
    assert (size (s ∖ {[Port hp]}) <= size s)%nat.
    { apply subseteq_size. intros x Hx.
      apply elem_of_difference in Hx as [Hx _]. exact Hx. }
    lia.
Qed.

(** What [Ports] returns, once the addresses are known to parse. *)
Lemma Ports_parsed (info : Info) (hostPorts : list HostPort) :
  ParseHostPorts (Addrs info) = inr hostPorts ->
  Ports info =
  Returns (elements
             (fold_left (fun ports hp => set.Add ports (Port hp)) hostPorts set.NewInts)).
Proof. intros Hp. unfold Ports, set.Values. rewrite Hp. reflexivity. Qed.

(** X1: [Validate] accepts a description exactly when it has addresses,
    every address parses, and, if the login is skipped, no tag, password
    or macaroon comes with it. *)
Theorem Validate_accepts_iff (info : Info) :
  Validate info = None <->
  Addrs info <> [] /\
  Forall (fun a => parses a = true) (Addrs info) /\
  (SkipLogin info = true ->
   Tag info = None /\ Password info = "" /\ Macaroons info = []).
Proof.
  split.
  - intros Hv. apply Validate_None_inv in Hv as (Hne & [hps Hp] & Hskip).
    split; [exact Hne|]. split; [|exact Hskip].
    exact (ParseHostPorts_inr_parses _ _ Hp).
  - intros (Hne & Hall & Hskip). apply Validate_accepts; assumption.
Qed.

(** X2: [Validate] looks at nothing but the addresses, the [SkipLogin]
    flag and, when the flag is set, whether a tag, a password and
    macaroons are there at all: two descriptions alike in these get the
    same verdict, whatever their other fields and whatever the
    credentials are. *)
Theorem Validate_reads_only (a b : Info) :
  Addrs a = Addrs b ->
  SkipLogin a = SkipLogin b ->
  (SkipLogin a = true ->
   isSome (Tag a) = isSome (Tag b) /\
   (Password a = "" <-> Password b = "") /\
   (Macaroons a = [] <-> Macaroons b = [])) ->
  Validate a = Validate b.
Proof.
  intros Haddrs Hskip Hcred. unfold Validate. rewrite <- Haddrs, <- Hskip.
  destruct (length (Addrs a) =? 0)%nat; [reflexivity|].
  destruct (ParseHostPorts (Addrs a)); [reflexivity|].
  destruct (SkipLogin a); [|reflexivity].
  destruct (Hcred eq_refl) as (Ht & Hp & Hm). rewrite <- Ht.
  destruct (isSome (Tag a)); [reflexivity|].
  destruct (String.eqb_spec (Password a) "") as [Ea|Ea],
           (String.eqb_spec (Password b) "") as [Eb|Eb];
    try (exfalso; tauto); cbn [negb]; [|reflexivity].
  destruct (Macaroons a) as [|ma ra], (Macaroons b) as [|mb rb];
    try reflexivity.
  - destruct Hm as [Hm _]. specialize (Hm eq_refl). discriminate.
  - destruct Hm as [_ Hm]. specialize (Hm eq_refl). discriminate.
Qed.

(** X4: whatever [Validate] objects to, the error it returns is one that
    [IsNotValid] recognises. *)
Theorem Validate_errors_all_not_valid (info : Info) (e : error) :
  Validate info = Some e -> IsNotValid e = true.
Proof. apply Validate_error_is_not_valid. Qed.

(** X5: [Ports] panics exactly when some address of the description does
    not parse. *)
Theorem Ports_panics_iff (info : Info) :
  (exists err, Ports info = Panics err) <->
  (exists a, a ∈ Addrs info /\ parses a = false).
Proof.
  unfold Ports. split.
  - intros [err Hp].
    destruct (ParseHostPorts (Addrs info)) as [e|hps] eqn:Hparse; [|discriminate].
    exact (ParseHostPorts_fails_some_address _ _ Hparse).
  - intros (a & Hin & Ha).
    destruct (ParseHostPorts_one_fails _ _ Hin Ha) as [err ->].
    exists err. reflexivity.
Qed.

(** X6: [Ports] returns no port at all exactly when the description has
    no address; in particular it does not panic on an empty list, which
    [Validate] refuses. *)
Theorem Ports_empty_iff (info : Info) :
  Ports info = Returns [] <-> Addrs info = [].
Proof.
  split.
  - intros Hr. destruct (Addrs info) as [|a rest] eqn:Ea; [reflexivity|exfalso].
    unfold Ports in Hr.
    destruct (ParseHostPorts (Addrs info)) as [e|hps] eqn:Hparse; [discriminate|].
    injection Hr as Hr. apply elements_empty_inv in Hr.
    rewrite Ea in Hparse.
    destruct (ParseHostPort a) as [e|hp] eqn:Hpa;
      [rewrite ParseHostPorts_cons, Hpa in Hparse; discriminate|].
    assert (Hin : Port hp ∈
      fold_left (fun ports hp => set.Add ports (Port hp)) hps set.NewInts).
    { apply (gathered_ports (a :: rest) hps _ Hparse).
      exists a, hp. split; [left|]. split; [exact Hpa|reflexivity]. }
    unfold set.Values in Hr. set_solver.
  - intros He. unfold Ports. rewrite He. reflexivity.
Qed.

(** X7: when [Ports] panics, [Validate] refuses the same description, and
    the error it reports carries the text of the value [Ports] panics
    with. *)
Theorem Ports_panic_is_Validate_error (info : Info) (err : error) :
  Ports info = Panics err ->
  Addrs info <> [] /\
  Validate info = Some (NotValidf ("host addresses: " +:+ Error err)).
Proof.
  unfold Ports, Validate. intros Hp.
  destruct (ParseHostPorts (Addrs info)) as [e|hps] eqn:Hparse; [|discriminate].
  injection Hp as ->.
  destruct (Addrs info) as [|a rest]; [discriminate|].
  split; [discriminate|reflexivity].
Qed.

(** X8: [Ports] never returns more ports than there are addresses. *)
Theorem Ports_at_most_one_per_address (info : Info) (ports : list Z) :
  Ports info = Returns ports ->
  (length ports <= length (Addrs info))%nat.
Proof.
  unfold Ports. intros Hr.
  destruct (ParseHostPorts (Addrs info)) as [e|hps] eqn:Hparse; [discriminate|].
  injection Hr as <-. unfold set.Values.
  pose proof (Forall2_length _ _ _ (ParseHostPorts_inr _ _ Hparse)) as Hlen.
  pose proof (size_fold_Add hps set.NewInts) as Hsize.
  unfold set.NewInts in Hsize at 2. rewrite size_empty in Hsize.
  unfold size, set_size in Hsize. cbn in Hsize. lia.
Qed.

(** X9: the order of the addresses and their repetitions do not matter
    to [Ports]: two descriptions with the same addresses, listed in any
    way, get the same ports (as lists, up to the order). *)
Theorem Ports_same_addresses (a b : Info) (ports : list Z) :
  (forall x, x ∈ Addrs a <-> x ∈ Addrs b) ->
  Ports a = Returns ports ->
  exists ports', Ports b = Returns ports' /\ ports ≡ₚ ports'.
Proof.
  intros Hsame Hr. unfold Ports in Hr.
  destruct (ParseHostPorts (Addrs a)) as [e|hpsa] eqn:Ha; [discriminate|].
  injection Hr as <-.
  assert (Hall : Forall (fun x => parses x = true) (Addrs b)).
  { apply Forall_forall. intros x Hx. apply Hsame in Hx.
    pose proof (ParseHostPorts_inr_parses _ _ Ha) as Hpa.
    rewrite Forall_forall in Hpa. exact (Hpa x Hx). }
  destruct (ParseHostPorts_all_parse _ Hall) as [hpsb Hb].
  rewrite (Ports_parsed b hpsb Hb). eexists. split; [reflexivity|].
  unfold set.Values. apply NoDup_Permutation; try apply NoDup_elements.
  intros p. rewrite !elem_of_elements.
  rewrite (gathered_ports _ _ p Ha), (gathered_ports _ _ p Hb).
  split; intros (x & hp & Hin & Hrest); exists x, hp; (split; [|exact Hrest]);
    apply Hsame; exact Hin.
Qed.

(** X10: a description that [Validate] accepts has at least one port. *)
Theorem Ports_nonempty_after_Validate (info : Info) :
  Validate info = None ->
  exists p ports, Ports info = Returns (p :: ports).
Proof.
  intros Hv. apply Validate_None_inv in Hv as (Hne & [hps Hp] & _).
  rewrite (Ports_parsed info hps Hp).
  destruct (elements _) as [|p ports] eqn:He; [exfalso|exists p, ports; reflexivity].
  assert (Hempty : Ports info = Returns []) by (rewrite (Ports_parsed info hps Hp), He; reflexivity).
  clear He. revert Hempty. unfold Ports. rewrite Hp. intros Hr.
  injection Hr as Hr. apply elements_empty_inv in Hr.
  destruct (Addrs info) as [|a rest]; [congruence|].
  rewrite ParseHostPorts_cons in Hp.
  destruct (ParseHostPort a) as [e|hp] eqn:Hpa; [discriminate|].
  destruct (ParseHostPorts rest) as [e|tl] eqn:Hrest; [discriminate|].
  injection Hp as <-. cbn [fold_left] in Hr.
  assert (Hin : Port hp ∈
    fold_left (fun ports hp => set.Add ports (Port hp)) tl (set.Add set.NewInts (Port hp))).
  { apply elem_of_fold_Add. left. unfold set.Add. set_solver. }
  set_solver.
Qed.

End MoreOnValidateAndPorts.

Section ValidateDiagnosis.

Context `{Net : Network}.

(** Closes one side of an equivalence between a verdict of [Validate] and
    its cause, once every test of [Validate] has been decided. *)
Ltac decided :=
  match goal with
  | |- _ <-> _ => split; intros; decided
  | H : _ /\ _ |- _ => destruct H; decided
  | H : Some _ = Some _ |- _ => discriminate H
  | H : None = Some _ |- _ => discriminate H
  | |- _ /\ _ => split; decided
  | |- _ => first [ assumption | reflexivity | discriminate | congruence ]
  end.

(** X3: the text of the error names the cause.  "missing addresses" is
    given exactly for an empty list of addresses; among descriptions whose
    addresses are there and parse, and whose login is skipped, the error
    about [Tag] is given exactly when a tag is set, the one about
    [Password] exactly when no tag but a password is set, the one about
    [Macaroons] exactly when macaroons are all that is set. *)
Theorem Validate_error_names_cause (info : Info) :
  (Validate info = Some (NotValidf "missing addresses") <->
   Addrs info = []) /\
  (Validate info = Some (NotValidf "specifying Tag and SkipLogin") <->
   Addrs info <> [] /\ Forall (fun a => parses a = true) (Addrs info) /\
   SkipLogin info = true /\ Tag info <> None) /\
  (Validate info = Some (NotValidf "specifying Password and SkipLogin") <->
   Addrs info <> [] /\ Forall (fun a => parses a = true) (Addrs info) /\
   SkipLogin info = true /\ Tag info = None /\ Password info <> "") /\
  (Validate info = Some (NotValidf "specifying Macaroons and SkipLogin") <->
   Addrs info <> [] /\ Forall (fun a => parses a = true) (Addrs info) /\
   SkipLogin info = true /\ Tag info = None /\ Password info = "" /\
   Macaroons info <> []).
Proof.
  unfold Validate, NotValidf.
  destruct (Addrs info) as [|a rest] eqn:Ea; cbn [length Nat.eqb].
  - repeat split; intros; decided.
  - destruct (ParseHostPorts (a :: rest)) as [err|hps] eqn:Hp.
    + assert (Hno : ~ Forall (fun x => parses x = true) (a :: rest)).
      { intros Hall. destruct (ParseHostPorts_all_parse _ Hall) as [hps Hok].
        congruence. }
      cbn. repeat split; intros; decided.
    + pose proof (ParseHostPorts_inr_parses _ _ Hp) as Hall.
      destruct (SkipLogin info), (Tag info),
               (String.eqb_spec (Password info) ""), (Macaroons info);
        cbn [isSome negb length Nat.ltb Nat.leb]; repeat split; intros; decided.
Qed.

End ValidateDiagnosis.

(** * Further properties of the dial options and of the rackspace
      configurator *)

(** X16: the default durations are positive and grow from the interval
    between two addresses through the retry delay to the timeout, which
    fits the 64 bits of a [Duration]; the clock is the wall clock, and the
    fields the literal leaves out are empty: no certificate path, no
    bakery client, no websocket dialer of its own. *)
Theorem DefaultDialOpts_durations_ordered :
  0 < DialAddressInterval DefaultDialOpts /\
  DialAddressInterval DefaultDialOpts < RetryDelay DefaultDialOpts /\
  RetryDelay DefaultDialOpts < Timeout DefaultDialOpts /\
  Timeout DefaultDialOpts < 2 ^ 63 /\
  Clock DefaultDialOpts = Some clock.WallClock /\
  CertPath DefaultDialOpts = "" /\
  BakeryClient DefaultDialOpts = None /\
  DialWebsocket DefaultDialOpts = None.
Proof. repeat split. Qed.

(** X11: [ModifyRunServerOptions] is idempotent: calling it on options it
    has already modified changes nothing. *)
Theorem ModifyRunServerOptions_idempotent {Others : Type}
    (c : rackspace.rackspaceConfigurator) (options : nova.RunServerOpts Others) :
  exists options',
    rackspace.ModifyRunServerOptions c (Some options) = Returns options' /\
    rackspace.ModifyRunServerOptions c (Some options') = Returns options'.
Proof. eexists. split; reflexivity. Qed.

(** X12: [ModifyRunServerOptions] returns exactly when it is given a
    non-nil pointer; on nil it panics. *)
Theorem ModifyRunServerOptions_returns_iff {Others : Type}
    (c : rackspace.rackspaceConfigurator)
    (options : option (nova.RunServerOpts Others)) :
  (exists options', rackspace.ModifyRunServerOptions c options = Returns options') <->
  options <> None.
Proof.
  destruct options as [opts|]; cbn; split.
  - discriminate.
  - intros _. eexists. reflexivity.
  - intros [o Ho]. discriminate Ho.
  - congruence.
Qed.

(** X13: [GetConfigDefaults] gives a default to three settings and to no
    other: the two flags are off, the network is the empty string, and
    any other name is absent from the map. *)
Theorem GetConfigDefaults_lookup (c : rackspace.rackspaceConfigurator) :
  rackspace.GetConfigDefaults c !! "use-floating-ip" = Some (schema.Bool false) /\
  rackspace.GetConfigDefaults c !! "use-default-secgroup" = Some (schema.Bool false) /\
  rackspace.GetConfigDefaults c !! "network" = Some (schema.Str "") /\
  (forall k : string,
     k <> "use-floating-ip" -> k <> "use-default-secgroup" -> k <> "network" ->
     rackspace.GetConfigDefaults c !! k = None) /\
  size (rackspace.GetConfigDefaults c) = 3%nat.
Proof.
  unfold rackspace.GetConfigDefaults. cbn [list_to_map foldr fst snd].
  split; [|split; [|split; [|split]]].
  - apply lookup_insert_eq.
  - rewrite lookup_insert_ne by discriminate. apply lookup_insert_eq.
  - rewrite !lookup_insert_ne by discriminate. apply lookup_insert_eq.
  - intros k H1 H2 H3.
    rewrite !lookup_insert_ne by congruence. apply lookup_empty.
  - rewrite !map_size_insert_None, map_size_empty; [reflexivity|..].
    + apply lookup_empty.
    + rewrite lookup_insert_ne by discriminate. apply lookup_empty.
    + rewrite !lookup_insert_ne by discriminate. apply lookup_empty.
Qed.

Section CloudConfig.

Import cloudinit.

Context `{CI : CloudInit}.

(** X14: [GetCloudConfig] fails exactly when [cloudinit.New] fails, with
    the error of [New] and a nil configuration; and of the configuration
    and the error it returns, one is nil and the other is not. *)
Theorem GetCloudConfig_error_iff (c : rackspace.rackspaceConfigurator)
    (args : environs.StartInstanceParams) (ic : instancecfg.InstanceConfig) :
  environs.InstanceConfig args = Some ic ->
  (forall e : error,
     rackspace.GetCloudConfig c args = Returns (None, Some e) <->
     New (instancecfg.OSType ic) (instancecfg.Series ic) = inl e) /\
  (forall cfg err,
     rackspace.GetCloudConfig c args = Returns (cfg, err) ->
     isSome cfg = negb (isSome err)).
Proof.
  intros Hic. unfold rackspace.GetCloudConfig. rewrite Hic.
  destruct (New _ _) as [e0|cfg0]; split.
  - intros e. unfold Trace. split; intros H; congruence.
  - intros cfg err H. injection H as <- <-. reflexivity.
  - intros e. split; intros H; discriminate H.
  - intros cfg err H. injection H as <- <-. reflexivity.
Qed.

(** X15: when [cloudinit.New] succeeds, and adding a package to a
    configuration adds just that package to its list, the configuration
    [GetCloudConfig] returns has the packages of the one [New] built and
    ["iptables-persistent"]. *)
Theorem GetCloudConfig_adds_iptables_persistent
    (c : rackspace.rackspaceConfigurator)
    (args : environs.StartInstanceParams) (ic : instancecfg.InstanceConfig)
    (base : CloudConfig) :
  (forall cfg p q, q ∈ Packages (AddPackage cfg p) <-> q = p \/ q ∈ Packages cfg) ->
  environs.InstanceConfig args = Some ic ->
  New (instancecfg.OSType ic) (instancecfg.Series ic) = inr base ->
  exists cfg,
    rackspace.GetCloudConfig c args = Returns (Some cfg, None) /\
    forall q, q ∈ Packages cfg <-> q = "iptables-persistent" \/ q ∈ Packages base.
Proof.
  intros Hadd Hic Hnew. unfold rackspace.GetCloudConfig. rewrite Hic, Hnew.
  eexists. split; [reflexivity|]. intros q. apply Hadd.
Qed.

End CloudConfig.

(** * The further statements at concrete inputs *)

(** Two skipped logins that differ in the password they wrongly carry and
    in their nonce. *)
Lemma Validate_reads_only_witness :
  let other := {|
    Addrs := ["10.0.0.1:17070"]; SNIHostName := "controller.example";
    CACert := "PEM"; ModelTag := {| names.uuid := "cafe" |};
    SkipLogin := true; Tag := None; Password := "hunter2";
    Macaroons := []; Nonce := "nonce" |} in
  @Validate simplenet.net skipWithPassword = @Validate simplenet.net other.
Proof.
  intros other.
  apply (Validate_reads_only (Net := simplenet.net) skipWithPassword other);
    [reflexivity | reflexivity |].
  intros _. split; [reflexivity|]. split.
  - split; intros H; cbv in H; discriminate H.
  - split; intros _; reflexivity.
Defined.

(** The error for a password given with a skipped login. *)
Lemma Validate_errors_all_not_valid_witness :
  @Validate simplenet.net skipWithPassword =
    Some (NotValid "specifying Password and SkipLogin") /\
  IsNotValid (NotValid "specifying Password and SkipLogin") = true.
Proof.
  split; [reflexivity|].
  apply (Validate_errors_all_not_valid (Net := simplenet.net) skipWithPassword).
  reflexivity.
Defined.

(** The address with a port that is no number. *)
Lemma Ports_panic_is_Validate_error_witness :
  @Ports simplenet.net badPort = Panics (Plain "cannot parse 10.0.0.2:http port") /\
  Addrs badPort <> [] /\
  @Validate simplenet.net badPort =
    Some (NotValidf ("host addresses: " +:+ Error (Plain "cannot parse 10.0.0.2:http port"))).
Proof.
  split; [reflexivity|].
  apply (Ports_panic_is_Validate_error (Net := simplenet.net) badPort).
  reflexivity.
Defined.

(** Three addresses, two ports. *)
Lemma Ports_at_most_one_per_address_witness :
  @Ports simplenet.net skipAnonymous = Returns [443; 17070] /\
  Nat.le (length [443; 17070]) (length (Addrs skipAnonymous)).
Proof.
  assert (H : @Ports simplenet.net skipAnonymous = Returns [443; 17070])
    by (vm_compute; reflexivity).
  split; [exact H|].
  exact (Ports_at_most_one_per_address (Net := simplenet.net) skipAnonymous _ H).
Defined.

(** The same three addresses, in another order and with one repeated. *)
Lemma Ports_same_addresses_witness :
  let shuffled :=
    exampleInfo ["10.0.0.3:443"; "10.0.0.1:17070"; "10.0.0.3:443"; "10.0.0.2:17070"]
                false None "" [] in
  exists ports',
    @Ports simplenet.net shuffled = Returns ports' /\ [443; 17070] ≡ₚ ports'.
Proof.
  intros shuffled.
  apply (Ports_same_addresses (Net := simplenet.net) skipAnonymous shuffled).
  - intros x. cbn. rewrite !elem_of_cons, !elem_of_nil. tauto.
  - vm_compute. reflexivity.
Defined.

(** The accepted description has a first port. *)
Lemma Ports_nonempty_after_Validate_witness :
  @Validate simplenet.net skipAnonymous = None /\
  exists p ports, @Ports simplenet.net skipAnonymous = Returns (p :: ports).
Proof.
  split; [reflexivity|].
  apply (Ports_nonempty_after_Validate (Net := simplenet.net) skipAnonymous).
  reflexivity.
Defined.

(** A setting the rackspace provider gives no default to. *)
Lemma GetConfigDefaults_lookup_witness :
  rackspace.GetConfigDefaults rackspace.Build_rackspaceConfigurator !! "region" = None.
Proof.
  destruct (GetConfigDefaults_lookup rackspace.Build_rackspaceConfigurator) as (_ & _ & _ & Hother & _).
  apply Hother; discriminate.
Defined.

(** A series the example package knows and one it does not. *)
Lemma GetCloudConfig_error_iff_witness :
  @rackspace.GetCloudConfig simplecloud.cloud rackspace.Build_rackspaceConfigurator (simplecloud.startParams "warty") =
    Returns (None, Some (Plain "unknown series warty")) /\
  isSome (Some ["curl"; "iptables-persistent"]) = negb (isSome (@None error)).
Proof.
  destruct (GetCloudConfig_error_iff (CI := simplecloud.cloud) rackspace.Build_rackspaceConfigurator
              (simplecloud.startParams "warty")
              (simplecloud.instanceConfig "warty") eq_refl) as [Hfail _].
  destruct (GetCloudConfig_error_iff (CI := simplecloud.cloud) rackspace.Build_rackspaceConfigurator
              (simplecloud.startParams "trusty")
              (simplecloud.instanceConfig "trusty") eq_refl) as [_ Hshape].
  split.
  - apply Hfail. reflexivity.
  - apply (Hshape (Some ["curl"; "iptables-persistent"]) None). reflexivity.
Defined.

(** On a known series the package comes on top of the base ones. *)
Lemma GetCloudConfig_adds_iptables_persistent_witness :
  exists cfg : list string,
    @rackspace.GetCloudConfig simplecloud.cloud rackspace.Build_rackspaceConfigurator (simplecloud.startParams "trusty") =
      Returns (Some cfg, None) /\
    forall q, q ∈ cfg <-> q = "iptables-persistent" \/ q ∈ ["curl"].
Proof.
  apply (GetCloudConfig_adds_iptables_persistent (CI := simplecloud.cloud) rackspace.Build_rackspaceConfigurator
           (simplecloud.startParams "trusty")
           (simplecloud.instanceConfig "trusty") ["curl"]).
  - intros cfg p q. cbn. rewrite elem_of_app, list_elem_of_singleton. tauto.
  - reflexivity.
  - reflexivity.
Defined.
